(** * edc_visit_schedule.model_mixins.visit_schedule_model_mixins

    A shallow embedding of [VisitScheduleMethodsModelMixin] and of the
    fields of [VisitScheduleFieldsModelMixin] / [VisitScheduleModelMixin],
    followed by the properties of schedule resolution and of the
    projection of a schedule's visits onto datetimes. *)

From Stdlib Require Import ZArith Lia Ascii String List.
From stdpp Require Import base option list strings pretty gmap.

Local Open Scope string_scope.
Local Open Scope Z_scope.

(** ** Python strings: [str.split] and two-target unpacking *)

Module Py.

(** [s.split(sep)] for a one-character separator: every occurrence of
    [sep] cuts; the result is never empty ([''.split('.')] is ['']). *)
Fixpoint split (sep : ascii) (s : string) : list string :=
  match s with
  | EmptyString => [EmptyString]
  | String c s' =>
      if Ascii.eqb c sep then EmptyString :: split sep s'
      else match split sep s' with
           | [] => [String c EmptyString]
           | w :: ws => String c w :: ws
           end
  end.

(** Number of occurrences of a character, [s.count(sep)]. *)
Fixpoint count (sep : ascii) (s : string) : nat :=
  match s with
  | EmptyString => 0%nat
  | String c s' => ((if Ascii.eqb c sep then 1 else 0) + count sep s')%nat
  end.

(** Exceptions that travel through the mixin.  Every exception carries
    its message ([str(e)]); [VisitScheduleModelError] also carries the
    exception it was raised [from] ([__cause__]).  [ScheduleNotFound]
    stands for the error of [VisitSchedule.get_schedule], whose class the
    mixin never names because it has no clause for it. *)
Inductive exn : Type :=
  | ValueError (msg : string)
  | RegistryNotLoaded (msg : string)
  | SiteVisitScheduleError (msg : string)
  | ScheduleNotFound (msg : string)
  | VisitScheduleModelError (msg : string) (cause : exn).

Definition str (e : exn) : string :=
  match e with
  | ValueError m | RegistryNotLoaded m | SiteVisitScheduleError m
  | ScheduleNotFound m | VisitScheduleModelError m _ => m
  end.

(** The class of the raised exception, what an [except C] clause tests. *)
Inductive exn_class : Type :=
  | ValueError_cls
  | RegistryNotLoaded_cls
  | SiteVisitScheduleError_cls
  | ScheduleNotFound_cls
  | VisitScheduleModelError_cls.

Definition class_of (e : exn) : exn_class :=
  match e with
  | ValueError _ => ValueError_cls
  | RegistryNotLoaded _ => RegistryNotLoaded_cls
  | SiteVisitScheduleError _ => SiteVisitScheduleError_cls
  | ScheduleNotFound _ => ScheduleNotFound_cls
  | VisitScheduleModelError _ _ => VisitScheduleModelError_cls
  end.

Global Instance exn_class_eq_dec : EqDecision exn_class.
Proof. solve_decision. Defined.

(** [__cause__] of an exception: set by [raise ... from e] only. *)
Definition cause_of (e : exn) : option exn :=
  match e with
  | VisitScheduleModelError _ c => Some c
  | _ => None
  end.

(** [a, b = l]: a [ValueError] unless [l] has exactly two items
    (CPython's wording of the two messages, 3.6 to 3.13). *)
Definition unpack2 (l : list string) : exn + (string * string) :=
  match l with
  | [a; b] => inr (a, b)
  | [] | [_] =>
      inl (ValueError ("not enough values to unpack (expected 2, got "
                         +:+ pretty (length l) +:+ ")"))
  | _ => inl (ValueError "too many values to unpack (expected 2)")
  end.

End Py.
Export Py.

(** ** The registry and the objects it owns

    [site_visit_schedules], [VisitSchedule], [Schedule] and [Visit] live in
    sibling modules of the package; the mixin only reads them. *)

(** Modelled from the spec: the calendar unit of a visit's offset, passed
    to [relativedelta] as the keyword of its one argument. *)
Inductive interval_unit : Type :=
  | years | months | weeks | days | hours | minutes | seconds | microseconds.

(** Modelled from the spec: a [Visit] definition carries its offset from
    the baseline as a magnitude and a calendar unit. *)
Record Visit : Type := {
  code : string;
  base_interval : Z;
  base_interval_unit : interval_unit
}.

(** Modelled from the spec: a [Schedule] is a named ordered sequence of
    visits. *)
Record Schedule : Type := {
  name : string;
  visits : list Visit
}.

(** Modelled from the spec: a [VisitSchedule] is a named collection of
    schedules keyed by schedule name. *)
Record VisitSchedule : Type := {
  vs_name : string;
  schedules : gmap string Schedule
}.

(** Modelled from the spec: the process-wide registry, a table of visit
    schedules keyed by name, with the flag that says it has been loaded. *)
Record SiteVisitSchedules : Type := {
  loaded : bool;
  registry : gmap string VisitSchedule
}.

(** The calls the mixin makes on the registry and on the objects it owns,
    in the order made. *)
Inductive call : Type :=
  | get_visit_schedule_call (visit_schedule_name : string)
  | get_schedule_call (receiver : VisitSchedule) (schedule_name : string).

(** The state a method runs in: the registry singleton and the log of the
    calls made on it so far. *)
Record World : Type := {
  site_visit_schedules : SiteVisitSchedules;
  calls : list call
}.

Definition log (c : call) (w : World) : World :=
  {| site_visit_schedules := site_visit_schedules w;
     calls := calls w ++ [c] |}.

(** ** Methods as state-passing computations that may raise *)

Definition M (A : Type) : Type := World -> (exn + A) * World.

Global Instance M_ret : MRet M := λ A (x : A) w, (inr x, w).

Global Instance M_bind : MBind M := λ A B (f : A -> M B) (m : M A) w,
  match m w with
  | (inl e, w') => (inl e, w')
  | (inr x, w') => f x w'
  end.

Definition raise {A : Type} (e : exn) : M A := λ w, (inl e, w).

(** A pure step that may raise. *)
Definition lift {A : Type} (r : exn + A) : M A := λ w, (r, w).

(** [try: body / except ...: handler]: [handler e] is [None] when no
    except clause matches the class of [e], which then propagates. *)
Definition try_except {A : Type} (body : M A) (handler : exn -> option (M A)) : M A :=
  λ w, match body w with
       | (inl e, w') =>
           match handler e with
           | Some h => h w'
           | None => (inl e, w')
           end
       | (inr x, w') => (inr x, w')
       end.

(** Result and final state of running a method. *)
Definition result {A : Type} (m : M A) (w : World) : exn + A := fst (m w).
Definition final {A : Type} (m : M A) (w : World) : World := snd (m w).

(** Modelled from the spec: [site_visit_schedules.get_visit_schedule(name)]
    raises the "not loaded" error before the registry has been loaded, the
    "not found" error for a name that is not registered, and returns the
    registered visit schedule otherwise.  It does not change the registry.
    The wording of the two messages is not given. *)
Definition get_visit_schedule (visit_schedule_name : string) : M VisitSchedule :=
  λ w,
    let site := site_visit_schedules w in
    let w' := log (get_visit_schedule_call visit_schedule_name) w in
    if loaded site then
      match registry site !! visit_schedule_name with
      | Some visit_schedule => (inr visit_schedule, w')
      | None =>
          (inl (SiteVisitScheduleError
                  ("Invalid visit schedule name. Got '"
                     +:+ visit_schedule_name +:+ "'.")), w')
      end
    else (inl (RegistryNotLoaded "Registry not loaded."), w').

(** Modelled from the spec: [VisitSchedule.get_schedule(schedule_name=...)]
    returns the schedule of that name and raises a "not found" error when
    the visit schedule has none.  The class and wording of that error are
    not given. *)
Definition get_schedule (self : VisitSchedule) (schedule_name : string) : M Schedule :=
  λ w,
    let w' := log (get_schedule_call self schedule_name) w in
    match schedules self !! schedule_name with
    | Some schedule => (inr schedule, w')
    | None =>
        (inl (ScheduleNotFound
                ("Invalid schedule name. Got '" +:+ schedule_name +:+ "'.")), w')
    end.

(** ** The model instance

    What the methods can read from [self]: the class name, the [Meta]
    option [visit_schedule_name] (a string, as every model that uses the
    mixin declares it), and the stored fields declared by
    [VisitScheduleFieldsModelMixin] and [VisitScheduleModelMixin]. *)
Record Model : Type := {
  class_name : string;                 (* self.__class__.__name__ *)
  meta_visit_schedule_name : string;   (* self._meta.visit_schedule_name *)
  visit_schedule_name : string;        (* CharField, max_length=25 *)
  schedule_name : string;              (* CharField, max_length=25 *)
  visit_code : option string           (* CharField, max_length=25, null=True *)
}.

(** ** VisitScheduleMethodsModelMixin *)

Module VisitScheduleMethodsModelMixin.

(** The [except ValueError as e] clause shared by both properties. *)
Definition except_ValueError {A : Type} (self : Model) (e : exn) : option (M A) :=
  match e with
  | ValueError _ =>
      Some (raise (VisitScheduleModelError
                     (class_name self +:+ ". Got " +:+ str e) e))
  | _ => None
  end.

(** The [except RegistryNotLoaded] and [except SiteVisitScheduleError]
    clauses of [visit_schedule]. *)
Definition except_registry {A : Type} (visit_schedule_name : string) (e : exn)
  : option (M A) :=
  match e with
  | RegistryNotLoaded _ =>
      Some (raise (VisitScheduleModelError
                     ("visit_schedule_name: '" +:+ visit_schedule_name
                        +:+ "'. Got " +:+ str e) e))
  | SiteVisitScheduleError _ =>
      Some (raise (VisitScheduleModelError
                     ("visit_schedule_name: '" +:+ visit_schedule_name
                        +:+ "'. Got " +:+ str e) e))
  | _ => None
  end.

(** The [visit_schedule] property. *)
Definition visit_schedule (self : Model) : M VisitSchedule :=
  '(visit_schedule_name, _) ←
    try_except (lift (unpack2 (split "." (meta_visit_schedule_name self))))
               (except_ValueError self);
  visit_schedule ←
    try_except (get_visit_schedule visit_schedule_name)
               (except_registry visit_schedule_name);
  mret visit_schedule.

(** The [schedule] property. *)
Definition schedule (self : Model) : M Schedule :=
  '(_, schedule_name) ←
    try_except (lift (unpack2 (split "." (meta_visit_schedule_name self))))
               (except_ValueError self);
  visit_schedule ← visit_schedule self;
  get_schedule visit_schedule schedule_name.

Section timepoints.

(** [datetime] objects and dateutil's sum of [base_datetime] and a
    [relativedelta] built from the one keyword argument [unit=n]; the
    mixin only calls them. *)
Variable datetime : Type.
Variable add_relativedelta : datetime -> interval_unit -> Z -> datetime.

(** The generator [timepoint_datetimes], as the sequence it yields: the
    body of its [for] loop, once per visit of [schedule.visits]. *)
Fixpoint timepoint_datetimes_loop (base_datetime : datetime) (vs : list Visit)
  : list (Visit * datetime) :=
  match vs with
  | [] => []
  | visit :: rest =>
      let timepoint_datetime :=
        if base_interval visit =? 0 then base_datetime
        else add_relativedelta base_datetime
               (base_interval_unit visit) (base_interval visit) in
      (visit, timepoint_datetime) :: timepoint_datetimes_loop base_datetime rest
  end.

Definition timepoint_datetimes (self : Model) (base_datetime : datetime)
    (schedule : Schedule) : list (Visit * datetime) :=
  timepoint_datetimes_loop base_datetime (visits schedule).

End timepoints.

End VisitScheduleMethodsModelMixin.
Export VisitScheduleMethodsModelMixin.

(** ** A calendar for the interface above

    Python's [datetime] and the sum with a one-keyword [relativedelta] as
    dateutil computes it: years and months move the calendar fields and
    clip the day to the length of the target month; the other units add a
    fixed duration.  The year is not bounded here (Python's is 1..9999 and
    overflows outside). *)

Module Calendar.

Record datetime : Type := {
  year : Z; month : Z; day : Z;
  hour : Z; minute : Z; second : Z; microsecond : Z
}.

Definition isleap (y : Z) : bool :=
  (y mod 4 =? 0) && (negb (y mod 100 =? 0) || (y mod 400 =? 0)).

(** [calendar.monthrange(y, m)[1]] *)
Definition days_in_month (y m : Z) : Z :=
  if m =? 2 then (if isleap y then 29 else 28)
  else if (m =? 4) || (m =? 6) || (m =? 9) || (m =? 11) then 30
  else 31.

Definition valid (dt : datetime) : Prop :=
  1 <= month dt <= 12 /\ 1 <= day dt <= days_in_month (year dt) (month dt) /\
  0 <= hour dt < 24 /\ 0 <= minute dt < 60 /\ 0 <= second dt < 60 /\
  0 <= microsecond dt < 1000000.

(** Calendar dates as (year, month, day), one day forward and back. *)
Definition date : Type := Z * Z * Z.

Definition next_day (d : date) : date :=
  let '(y, m, dd) := d in
  if dd <? days_in_month y m then (y, m, dd + 1)
  else if m <? 12 then (y, m + 1, 1)
  else (y + 1, 1, 1).

Definition prev_day (d : date) : date :=
  let '(y, m, dd) := d in
  if 1 <? dd then (y, m, dd - 1)
  else if 1 <? m then (y, m - 1, days_in_month y (m - 1))
  else (y - 1, 12, 31).

(** [n] days later ([n] may be negative). *)
Definition add_days (d : date) (n : Z) : date :=
  Z.iter n next_day (Z.iter (- n) prev_day d).

Definition date_of (dt : datetime) : date := (year dt, month dt, day dt).

(** Microseconds since midnight, and back. *)
Definition usec_per_day : Z := 86400000000.

Definition time_of (dt : datetime) : Z :=
  ((hour dt * 60 + minute dt) * 60 + second dt) * 1000000 + microsecond dt.

Definition make (d : date) (t : Z) : datetime :=
  let '(y, m, dd) := d in
  {| year := y; month := m; day := dd;
     hour := t / 3600000000;
     minute := (t / 60000000) mod 60;
     second := (t / 1000000) mod 60;
     microsecond := t mod 1000000 |}.

(** [dt + timedelta(microseconds=us)] *)
Definition add_timedelta (dt : datetime) (us : Z) : datetime :=
  let total := time_of dt + us in
  make (add_days (date_of dt) (total / usec_per_day)) (total mod usec_per_day).

(** [dt.replace(year=y, month=m, day=min(monthrange(y, m)[1], dt.day))] *)
Definition replace_clipped (dt : datetime) (y m : Z) : datetime :=
  {| year := y; month := m; day := Z.min (days_in_month y m) (day dt);
     hour := hour dt; minute := minute dt; second := second dt;
     microsecond := microsecond dt |}.

(** [relativedelta(months=n)] after its normalisation: whole years are
    carried out of the months, both keeping the sign of [n]. *)
Definition fix_months (n : Z) : Z * Z :=
  if 11 <? Z.abs n then
    let s := Z.sgn n in
    ((n * s / 12) * s, ((n * s) mod 12) * s)
  else (0, n).

(** [dt + relativedelta(years=ys, months=ms)] for normalised [ms]. *)
Definition add_years_months (dt : datetime) (ys ms : Z) : datetime :=
  let y := year dt + ys in
  let m := month dt + ms in
  if 12 <? m then replace_clipped dt (y + 1) (m - 12)
  else if m <? 1 then replace_clipped dt (y - 1) (m + 12)
  else replace_clipped dt y m.

(** [dt + relativedelta(unit=n)] *)
Definition add_relativedelta (dt : datetime) (u : interval_unit) (n : Z) : datetime :=
  match u with
  | years => add_years_months dt n 0
  | months => let '(ys, ms) := fix_months n in add_years_months dt ys ms
  | weeks => add_timedelta dt (n * 7 * usec_per_day)
  | days => add_timedelta dt (n * usec_per_day)
  | hours => add_timedelta dt (n * 3600000000)
  | minutes => add_timedelta dt (n * 60000000)
  | seconds => add_timedelta dt (n * 1000000)
  | microseconds => add_timedelta dt n
  end.

(** The order of dates and of datetimes. *)
Definition date_lt (a b : date) : Prop :=
  let '(y1, m1, d1) := a in
  let '(y2, m2, d2) := b in
  y1 < y2 \/ (y1 = y2 /\ (m1 < m2 \/ (m1 = m2 /\ d1 < d2))).

Definition lt (a b : datetime) : Prop :=
  date_lt (date_of a) (date_of b) \/
  (date_of a = date_of b /\ time_of a < time_of b).

End Calendar.

(** ** Vocabulary of the properties *)

(** The error the [except ValueError] clause raises for the record [self]:
    the class name of the record, then the text of the [ValueError] it was
    raised from. *)
Definition malformed_path_error (self : Model) (e : exn) : Prop :=
  exists msg,
    e = VisitScheduleModelError (class_name self +:+ ". Got " +:+ msg)
          (ValueError msg).

(** The error the two registry clauses raise, around the error [c] that
    [get_visit_schedule] raised for the name [a]. *)
Definition registry_error (a : string) (c : exn) : exn :=
  VisitScheduleModelError
    ("visit_schedule_name: '" +:+ a +:+ "'. Got " +:+ str c) c.

(** A path segment: a string without the separator. *)
Definition segment (s : string) : Prop := count "." s = 0%nat.

(** The exception a run ended with, if it raised. *)
Definition raised {A : Type} (r : exn + A) : option exn :=
  match r with
  | inl e => Some e
  | inr _ => None
  end.

(** ** Sample data

    A registry with one visit schedule of one schedule, and records of two
    model classes declared against it. *)

Module Sample.

Definition enrolment : Visit :=
  {| code := "1000"; base_interval := 0; base_interval_unit := days |}.

Definition month2 : Visit :=
  {| code := "1020"; base_interval := 2; base_interval_unit := months |}.

Definition week_before : Visit :=
  {| code := "0990"; base_interval := -1; base_interval_unit := weeks |}.

Definition schedule1 : Schedule :=
  {| name := "schedule1"; visits := [enrolment; month2; week_before] |}.

Definition visit_schedule1 : VisitSchedule :=
  {| vs_name := "visit_schedule1";
     schedules := {[ "schedule1" := schedule1 ]} |}.

Definition site_loaded : SiteVisitSchedules :=
  {| loaded := true; registry := {[ "visit_schedule1" := visit_schedule1 ]} |}.

Definition site_not_loaded : SiteVisitSchedules :=
  {| loaded := false; registry := ∅ |}.

Definition world (site : SiteVisitSchedules) : World :=
  {| site_visit_schedules := site; calls := [] |}.

(** A record of class [cls] whose [Meta.visit_schedule_name] is [path]. *)
Definition record (cls path : string) : Model :=
  {| class_name := cls;
     meta_visit_schedule_name := path;
     visit_schedule_name := "visit_schedule1";
     schedule_name := "schedule1";
     visit_code := None |}.

(** 2024-01-31 10:30:00 *)
Definition baseline : Calendar.datetime :=
  {| Calendar.year := 2024; Calendar.month := 1; Calendar.day := 31;
     Calendar.hour := 10; Calendar.minute := 30; Calendar.second := 0;
     Calendar.microsecond := 0 |}.

End Sample.

(** ** The rest of the module *)

(** The statement the module runs when it is imported: the [Meta] option
    [visit_schedule_name] is added to Django's [options.DEFAULT_NAMES], a
    tuple of option names, unless it is there already.  The function
    takes the tuple before the statement to the tuple after it. *)
Definition extend_DEFAULT_NAMES (DEFAULT_NAMES : list string) : list string :=
  if bool_decide ("visit_schedule_name" ∈ DEFAULT_NAMES) then DEFAULT_NAMES
  else (DEFAULT_NAMES ++ ["visit_schedule_name"])%list.

(** The [visits] property of the mixin, [self.schedule.get_visits()].
    [Schedule.get_visits] lives with [Schedule] in a sibling module; the
    property is embedded for any method of that name. *)

Module Visits.

Section get_visits.

Variable A : Type.
Variable get_visits : Schedule -> M A.

Definition visits (self : Model) : M A :=
  schedule ← schedule self;
  get_visits schedule.

End get_visits.

End Visits.

(** Names Django's [Options] accepts before the module is imported (a
    few of them), and a [get_visits] that hands out the visit list. *)
Definition sample_DEFAULT_NAMES : list string :=
  ["verbose_name"; "db_table"; "ordering"; "abstract"].

Definition sample_get_visits (s : Schedule) : M (list Visit) :=
  mret (visits s).

(** Unfolds a run of the two properties down to the registry. *)
Ltac run :=
  unfold schedule, visit_schedule, result, final, mbind, mret, M_bind, M_ret,
    try_except, lift, raise, get_visit_schedule, get_schedule; simpl.

(** * Properties *)

(** ** [split] and unpacking *)

Section split_facts.

Variable sep : ascii.

Lemma split_not_nil (s : string) : split sep s <> [].
Proof.
  destruct s as [|c s]; simpl; [discriminate|].
  destruct (Ascii.eqb c sep); [discriminate|].
  destruct (split sep s); discriminate.
Qed.

Lemma length_split (s : string) :
  length (split sep s) = S (count sep s).
Proof.
  induction s as [|c s IH]; simpl; [reflexivity|].
  destruct (Ascii.eqb c sep); simpl.
  - now rewrite IH.
  - destruct (split sep s) as [|w ws] eqn:E; simpl in *; [discriminate|].
    exact IH.
Qed.

Lemma split_sep_free (s : string) :
  count sep s = 0%nat -> split sep s = [s].
Proof.
  induction s as [|c s IH]; simpl; [reflexivity|].
  destruct (Ascii.eqb c sep); simpl; [discriminate|].
  intros H. now rewrite (IH H).
Qed.

Lemma split_app_sep (a b : string) :
  count sep a = 0%nat ->
  split sep (a +:+ String sep b) = a :: split sep b.
Proof.
  induction a as [|c a IH]; simpl.
  - intros _. now rewrite Ascii.eqb_refl.
  - destruct (Ascii.eqb c sep); simpl; [discriminate|].
    intros H. now rewrite (IH H).
Qed.

Lemma split_two (a b : string) :
  count sep a = 0%nat -> count sep b = 0%nat ->
  split sep (a +:+ String sep b) = [a; b].
Proof.
  intros Ha Hb. now rewrite (split_app_sep _ _ Ha), (split_sep_free _ Hb).
Qed.

Lemma split_cons_inv (s a : string) (l : list string) :
  split sep s = a :: l ->
  count sep a = 0%nat /\
  match l with
  | [] => s = a
  | b :: l' => exists s', s = a +:+ String sep s' /\ split sep s' = b :: l'
  end.
Proof.
  revert a l. induction s as [|c s IH]; simpl; intros a l H.
  - injection H as <- <-. now split.
  - destruct (Ascii.eqb c sep) eqn:Ec.
    + apply Ascii.eqb_eq in Ec. subst c.
      injection H as <- <-. split; [reflexivity|].
      destruct (split sep s) as [|b l'] eqn:E.
      * now apply split_not_nil in E.
      * exists s. now split.
    + destruct (split sep s) as [|w ws] eqn:E.
      * now apply split_not_nil in E.
      * injection H as <- <-.
        destruct (IH w ws eq_refl) as [Hw Hrest].
        split; [simpl; now rewrite Ec|].
        destruct ws as [|b l'].
        -- now subst.
        -- destruct Hrest as (s' & -> & Hs'). exists s'. now split.
Qed.

Lemma split_two_inv (s a b : string) :
  split sep s = [a; b] ->
  s = a +:+ String sep b /\ count sep a = 0%nat /\ count sep b = 0%nat.
Proof.
  intros H. destruct (split_cons_inv _ _ _ H) as [Ha (s' & -> & Hs')].
  destruct (split_cons_inv _ _ _ Hs') as [Hb ->]. now repeat split.
Qed.

End split_facts.

Lemma unpack2_two (a b : string) : unpack2 [a; b] = inr (a, b).
Proof. reflexivity. Qed.

Lemma unpack2_inr (l : list string) (a b : string) :
  unpack2 l = inr (a, b) -> l = [a; b].
Proof.
  destruct l as [|x [|y [|z l]]]; simpl; try discriminate.
  now intros [= <- <-].
Qed.

Lemma unpack2_error (l : list string) :
  length l <> 2%nat -> exists msg, unpack2 l = inl (ValueError msg).
Proof.
  destruct l as [|x [|y [|z l]]]; simpl; intros H; eauto.
  now destruct H.
Qed.

(** ** Running the two properties *)

Section resolution.

Variables (self : Model) (w : World).

Let path := meta_visit_schedule_name self.
Let site := site_visit_schedules w.

Lemma get_visit_schedule_run (a : string) :
  get_visit_schedule a w =
    (if loaded site then
       match registry site !! a with
       | Some vs => inr vs
       | None => inl (SiteVisitScheduleError
                        ("Invalid visit schedule name. Got '" +:+ a +:+ "'."))
       end
     else inl (RegistryNotLoaded "Registry not loaded."),
     log (get_visit_schedule_call a) w).
Proof.
  unfold get_visit_schedule, site. destruct (loaded _); [|reflexivity].
  now destruct (registry _ !! a).
Qed.

Lemma get_visit_schedule_error_class (a : string) (c : exn) :
  result (get_visit_schedule a) w = inl c ->
  (loaded site = false /\ class_of c = RegistryNotLoaded_cls) \/
  (loaded site = true /\ registry site !! a = None /\
   class_of c = SiteVisitScheduleError_cls).
Proof.
  unfold result. rewrite get_visit_schedule_run. simpl.
  destruct (loaded site).
  - destruct (registry site !! a) eqn:E; [discriminate|].
    intros [= <-]. now right.
  - intros [= <-]. now left.
Qed.

Lemma visit_schedule_malformed :
  length (split "." path) <> 2%nat ->
  exists msg,
    visit_schedule self w =
      (inl (VisitScheduleModelError (class_name self +:+ ". Got " +:+ msg)
              (ValueError msg)), w).
Proof.
  intros H. destruct (unpack2_error _ H) as [msg Hmsg].
  exists msg. subst path. run. now rewrite Hmsg.
Qed.

Lemma schedule_malformed :
  length (split "." path) <> 2%nat ->
  exists msg,
    schedule self w =
      (inl (VisitScheduleModelError (class_name self +:+ ". Got " +:+ msg)
              (ValueError msg)), w).
Proof.
  intros H. destruct (unpack2_error _ H) as [msg Hmsg].
  exists msg. subst path. run. now rewrite Hmsg.
Qed.

Lemma visit_schedule_wellformed (a b : string) :
  split "." path = [a; b] ->
  visit_schedule self w =
    (match result (get_visit_schedule a) w with
     | inr vs => inr vs
     | inl c => inl (registry_error a c)
     end, log (get_visit_schedule_call a) w).
Proof.
  intros H. unfold result. rewrite get_visit_schedule_run.
  subst path site. run. rewrite H. simpl.
  destruct (loaded _); [|reflexivity].
  now destruct (registry _ !! a).
Qed.

Lemma schedule_wellformed (a b : string) :
  split "." path = [a; b] ->
  schedule self w =
    match result (get_visit_schedule a) w with
    | inr vs => get_schedule vs b (log (get_visit_schedule_call a) w)
    | inl c => (inl (registry_error a c), log (get_visit_schedule_call a) w)
    end.
Proof.
  intros H. unfold result. rewrite get_visit_schedule_run.
  subst path site. run. rewrite H. simpl.
  destruct (loaded _); [|reflexivity].
  now destruct (registry _ !! a).
Qed.

End resolution.

(** ** The registry is only read *)

Lemma get_schedule_run (w : World) (vs : VisitSchedule) (b : string) :
  get_schedule vs b w =
    (match schedules vs !! b with
     | Some s => inr s
     | None => inl (ScheduleNotFound
                      ("Invalid schedule name. Got '" +:+ b +:+ "'."))
     end, log (get_schedule_call vs b) w).
Proof. unfold get_schedule. now destruct (schedules vs !! b). Qed.

Lemma get_visit_schedule_result_site (a : string) (w w' : World) :
  site_visit_schedules w' = site_visit_schedules w ->
  result (get_visit_schedule a) w' = result (get_visit_schedule a) w.
Proof.
  intros H. unfold result. rewrite !get_visit_schedule_run. simpl. now rewrite H.
Qed.

Lemma schedule_run (self : Model) (w : World) :
  schedule self w =
    match unpack2 (split "." (meta_visit_schedule_name self)) with
    | inl (ValueError msg) =>
        (inl (VisitScheduleModelError
                (class_name self +:+ ". Got " +:+ msg) (ValueError msg)), w)
    | inl e => (inl e, w)
    | inr (a, b) =>
        match result (get_visit_schedule a) w with
        | inr vs => get_schedule vs b (log (get_visit_schedule_call a) w)
        | inl c => (inl (registry_error a c), log (get_visit_schedule_call a) w)
        end
    end.
Proof.
  destruct (unpack2 _) as [e|[a b]] eqn:E.
  - destruct (split "." (meta_visit_schedule_name self)) as [|x [|y [|z l]]] eqn:Es;
      simpl in E; try discriminate; injection E as <-; run; now rewrite Es.
  - apply unpack2_inr in E. now apply schedule_wellformed.
Qed.

Lemma schedule_result_site (self : Model) (w w' : World) :
  site_visit_schedules w' = site_visit_schedules w ->
  result (schedule self) w' = result (schedule self) w.
Proof.
  intros H.
  change (fst (schedule self w') = fst (schedule self w)).
  rewrite !schedule_run.
  destruct (unpack2 _) as [[]|[a b]]; try reflexivity.
  rewrite (get_visit_schedule_result_site a w w' H).
  destruct (result (get_visit_schedule a) w); [reflexivity|].
  now rewrite !get_schedule_run.
Qed.

Lemma schedule_final_site (self : Model) (w : World) :
  site_visit_schedules (final (schedule self) w) = site_visit_schedules w.
Proof.
  unfold final. rewrite schedule_run.
  destruct (unpack2 _) as [[]|[a b]]; try reflexivity.
  destruct (result (get_visit_schedule a) w); [reflexivity|].
  now rewrite get_schedule_run.
Qed.

(** ** Resolution of a well-formed, registered path *)

(** C1. For every well-formed path "A.B" whose visit-schedule name A is
    registered in the (loaded) registry and whose schedule name B exists
    within that visit schedule, the [schedule] property returns the
    schedule kept under B inside the visit schedule kept under A. *)
Theorem schedule_returns_registered_schedule
    (self : Model) (w : World) (a b : string)
    (vs : VisitSchedule) (s : Schedule) :
  segment a -> segment b ->
  meta_visit_schedule_name self = a +:+ "." +:+ b ->
  loaded (site_visit_schedules w) = true ->
  registry (site_visit_schedules w) !! a = Some vs ->
  schedules vs !! b = Some s ->
  result (schedule self) w = inr s.
Proof.
  intros Ha Hb Hpath Hloaded Hvs Hs.
  assert (Hsplit : split "." (meta_visit_schedule_name self) = [a; b])
    by (rewrite Hpath; now apply split_two).
  unfold result. rewrite (schedule_wellformed _ _ _ _ Hsplit).
  unfold result. rewrite get_visit_schedule_run. simpl.
  rewrite Hloaded, Hvs, get_schedule_run. simpl. now rewrite Hs.
Qed.

Lemma schedule_returns_registered_schedule_witness :
  result (schedule (Sample.record "Appointment" "visit_schedule1.schedule1"))
         (Sample.world Sample.site_loaded)
  = inr Sample.schedule1.
Proof.
  apply (schedule_returns_registered_schedule _ _
           "visit_schedule1" "schedule1" Sample.visit_schedule1);
    reflexivity.
Defined.

(** ** Malformed paths *)

Lemma count_one_split (p : string) :
  count "." p = 1%nat -> exists a b, split "." p = [a; b].
Proof.
  intros H. pose proof (length_split "." p) as L. rewrite H in L.
  destruct (split "." p) as [|a [|b [|c l]]]; try discriminate. eauto.
Qed.

Lemma registry_error_not_malformed (self : Model) (w : World) (a : string) (c : exn) :
  result (get_visit_schedule a) w = inl c ->
  ~ malformed_path_error self (registry_error a c).
Proof.
  intros Hc [msg Hmsg]. unfold registry_error in Hmsg.
  injection Hmsg as _ ->.
  now destruct (get_visit_schedule_error_class _ _ _ Hc) as [[_ ?]|(_ & _ & ?)].
Qed.

(** C3, amended. For every path string that does not hold exactly one "."
    (such as "A", "A.B.C" or the empty string), the [schedule] property fails with
    the malformed-path error and makes no lookup: the state it leaves is
    the state it found.  A path with exactly one "." is never rejected as
    malformed, empty segments included: its first segment is looked up in
    the registry. *)
Theorem malformed_path_iff_separator_count (self : Model) (w : World) :
  (count "." (meta_visit_schedule_name self) <> 1%nat ->
     exists e, malformed_path_error self e /\ schedule self w = (inl e, w)) /\
  (count "." (meta_visit_schedule_name self) = 1%nat ->
     exists a b,
       split "." (meta_visit_schedule_name self) = [a; b] /\
       (forall e, result (schedule self) w = inl e ->
                  ~ malformed_path_error self e) /\
       exists rest,
         calls (final (schedule self) w)
         = (calls w ++ get_visit_schedule_call a :: rest)%list).
Proof.
  split.
  - intros H.
    destruct (schedule_malformed self w) as [msg Hmsg].
    + rewrite length_split. lia.
    + eexists. split; [|exact Hmsg]. now exists msg.
  - intros H. destruct (count_one_split _ H) as (a & b & Hsplit).
    exists a, b. split; [exact Hsplit|].
    unfold result at 1, final. rewrite (schedule_wellformed _ _ _ _ Hsplit).
    destruct (result (get_visit_schedule a) w) as [c|vs] eqn:Hc.
    + split.
      * simpl. intros e [= <-]. now apply (registry_error_not_malformed _ w).
      * now exists [].
    + rewrite get_schedule_run. simpl. split.
      * destruct (schedules vs !! b); [discriminate|].
        intros e [= <-] [msg Hmsg]. discriminate.
      * exists [get_schedule_call vs b]. unfold log. simpl.
        now rewrite <- app_assoc.
Qed.

Lemma malformed_path_iff_separator_count_witness :
  (exists e,
     malformed_path_error (Sample.record "Appointment" "A.B.C") e /\
     schedule (Sample.record "Appointment" "A.B.C")
       (Sample.world Sample.site_loaded)
     = (inl e, Sample.world Sample.site_loaded)) /\
  (exists a b,
     split "." "." = [a; b] /\
     (forall e,
        result (schedule (Sample.record "Appointment" "."))
          (Sample.world Sample.site_loaded) = inl e ->
        ~ malformed_path_error (Sample.record "Appointment" ".") e) /\
     exists rest,
       calls (final (schedule (Sample.record "Appointment" "."))
                (Sample.world Sample.site_loaded))
       = ([] ++ get_visit_schedule_call a :: rest)%list).
Proof.
  split.
  - apply (malformed_path_iff_separator_count
             (Sample.record "Appointment" "A.B.C")
             (Sample.world Sample.site_loaded)).
    simpl. lia.
  - apply (malformed_path_iff_separator_count
             (Sample.record "Appointment" ".")
             (Sample.world Sample.site_loaded)).
    reflexivity.
Defined.

(** C3 as stated fails on the path ".": it does not split into two
    non-empty segments, yet it unpacks into the two empty segments, the
    registry is asked for the visit schedule named by the empty string, and the error
    raised is the registry clause's, not the malformed-path error. *)
Lemma dot_path_is_looked_up :
  split "." "." = [""; ""] /\
  (exists msg,
     result (schedule (Sample.record "Appointment" "."))
       (Sample.world Sample.site_loaded)
     = inl (registry_error "" (SiteVisitScheduleError msg))) /\
  calls (final (schedule (Sample.record "Appointment" "."))
           (Sample.world Sample.site_loaded))
  = [get_visit_schedule_call ""].
Proof.
  split; [reflexivity|]. split; [|reflexivity].
  eexists. reflexivity.
Qed.

(** ** The kinds of error *)

(** C4, amended. Resolution before the registry has been loaded, and
    resolution of a well-formed path whose visit-schedule name is not
    registered, both fail with an exception of the class of the
    malformed-path error, [VisitScheduleModelError]; the three are told
    apart by the chained cause only, which is a [RegistryNotLoaded], a
    [SiteVisitScheduleError] and a [ValueError] respectively.  A schedule
    name that the registered visit schedule does not hold fails with the
    error [get_schedule] raises, which reaches the caller as raised, with
    no cause chained. *)
Theorem resolution_error_kinds (self : Model) (w : World) :
  (length (split "." (meta_visit_schedule_name self)) <> 2%nat ->
     exists e c,
       result (schedule self) w = inl e /\
       class_of e = VisitScheduleModelError_cls /\
       cause_of e = Some c /\ class_of c = ValueError_cls) /\
  (forall a b,
     split "." (meta_visit_schedule_name self) = [a; b] ->
     (loaded (site_visit_schedules w) = false ->
        exists e c,
          result (schedule self) w = inl e /\
          class_of e = VisitScheduleModelError_cls /\
          cause_of e = Some c /\ class_of c = RegistryNotLoaded_cls) /\
     (loaded (site_visit_schedules w) = true ->
      registry (site_visit_schedules w) !! a = None ->
        exists e c,
          result (schedule self) w = inl e /\
          class_of e = VisitScheduleModelError_cls /\
          cause_of e = Some c /\ class_of c = SiteVisitScheduleError_cls) /\
     (forall vs,
        loaded (site_visit_schedules w) = true ->
        registry (site_visit_schedules w) !! a = Some vs ->
        schedules vs !! b = None ->
        exists e,
          result (schedule self) w = inl e /\
          result (get_schedule vs b) w = inl e /\
          class_of e = ScheduleNotFound_cls /\ cause_of e = None)).
Proof.
  split.
  - intros H. destruct (schedule_malformed self w H) as [msg Hmsg].
    unfold result. rewrite Hmsg. simpl. eauto 10.
  - intros a b Hsplit. unfold result at 1 2 3.
    rewrite (schedule_wellformed _ _ _ _ Hsplit).
    unfold result at 1 2 3. rewrite get_visit_schedule_run. simpl.
    repeat split.
    + intros ->. simpl. eauto 10.
    + intros -> ->. simpl. eauto 10.
    + intros vs -> -> Hb. unfold result. rewrite !get_schedule_run, Hb.
      simpl. eauto 10.
Qed.

Lemma resolution_error_kinds_witness :
  (exists e c,
     result (schedule (Sample.record "Appointment" "visit_schedule1.schedule1"))
       (Sample.world Sample.site_not_loaded) = inl e /\
     class_of e = VisitScheduleModelError_cls /\
     cause_of e = Some c /\ class_of c = RegistryNotLoaded_cls) /\
  (exists e c,
     result (schedule (Sample.record "Appointment" "visit_schedule9.schedule1"))
       (Sample.world Sample.site_loaded) = inl e /\
     class_of e = VisitScheduleModelError_cls /\
     cause_of e = Some c /\ class_of c = SiteVisitScheduleError_cls) /\
  (exists e,
     result (schedule (Sample.record "Appointment" "visit_schedule1.schedule9"))
       (Sample.world Sample.site_loaded) = inl e /\
     result (get_schedule Sample.visit_schedule1 "schedule9")
       (Sample.world Sample.site_loaded) = inl e /\
     class_of e = ScheduleNotFound_cls /\ cause_of e = None).
Proof.
  repeat split.
  - apply (proj2 (resolution_error_kinds
                    (Sample.record "Appointment" "visit_schedule1.schedule1")
                    (Sample.world Sample.site_not_loaded))
             "visit_schedule1" "schedule1"); reflexivity.
  - apply (proj2 (resolution_error_kinds
                    (Sample.record "Appointment" "visit_schedule9.schedule1")
                    (Sample.world Sample.site_loaded))
             "visit_schedule9" "schedule1"); reflexivity.
  - apply (proj2 (resolution_error_kinds
                    (Sample.record "Appointment" "visit_schedule1.schedule9")
                    (Sample.world Sample.site_loaded))
             "visit_schedule1" "schedule9" eq_refl); reflexivity.
Defined.

(** C4 as stated fails on the class of the exception raised: a path with
    no separator, an unloaded registry and an unregistered name all end
    in an exception of the one class [VisitScheduleModelError]. *)
Lemma resolution_errors_share_one_class :
  class_of <$> raised (result (schedule (Sample.record "Appointment" "visit_schedule1"))
                         (Sample.world Sample.site_loaded))
  = Some VisitScheduleModelError_cls /\
  class_of <$> raised (result (schedule (Sample.record "Appointment" "visit_schedule1.schedule1"))
                         (Sample.world Sample.site_not_loaded))
  = Some VisitScheduleModelError_cls /\
  class_of <$> raised (result (schedule (Sample.record "Appointment" "visit_schedule9.schedule1"))
                         (Sample.world Sample.site_loaded))
  = Some VisitScheduleModelError_cls.
Proof. repeat split; reflexivity. Qed.

(** ** The [visit_schedule] property *)

(** C6. The [visit_schedule] property unpacks the full dotted path, so a
    path that does not split into exactly two parts raises the
    malformed-path error before any lookup; on a path of two parts it is
    the registry lookup of the first part alone: the second part does not
    occur in what it computes, it is not looked up ([get_schedule] is
    never called), and a registered first part resolves whether or not
    the visit schedule holds the second. *)
Theorem visit_schedule_uses_first_segment_only (self : Model) (w : World) :
  (length (split "." (meta_visit_schedule_name self)) <> 2%nat ->
     exists e, malformed_path_error self e /\ visit_schedule self w = (inl e, w)) /\
  (forall a b,
     split "." (meta_visit_schedule_name self) = [a; b] ->
     visit_schedule self w
       = try_except (get_visit_schedule a) (except_registry a) w /\
     calls (final (visit_schedule self) w)
       = (calls w ++ [get_visit_schedule_call a])%list /\
     (forall vs,
        loaded (site_visit_schedules w) = true ->
        registry (site_visit_schedules w) !! a = Some vs ->
        result (visit_schedule self) w = inr vs) /\
     (forall self' b',
        split "." (meta_visit_schedule_name self') = [a; b'] ->
        visit_schedule self' w = visit_schedule self w)).
Proof.
  split.
  - intros H. destruct (visit_schedule_malformed self w H) as [msg Hmsg].
    eexists. split; [|exact Hmsg]. now exists msg.
  - intros a b Hsplit.
    assert (Hrun : forall self0 b0,
               split "." (meta_visit_schedule_name self0) = [a; b0] ->
               visit_schedule self0 w
               = try_except (get_visit_schedule a) (except_registry a) w).
    { intros self0 b0 H0. rewrite (visit_schedule_wellformed _ _ _ _ H0).
      unfold result, try_except. rewrite get_visit_schedule_run. simpl.
      destruct (loaded _); [|reflexivity].
      now destruct (registry _ !! a). }
    split; [now apply (Hrun self b)|].
    split; [|split].
    + unfold final. now rewrite (visit_schedule_wellformed _ _ _ _ Hsplit).
    + intros vs Hl Hvs. unfold result at 1.
      rewrite (visit_schedule_wellformed _ _ _ _ Hsplit).
      unfold result. rewrite get_visit_schedule_run. simpl.
      now rewrite Hl, Hvs.
    + intros self' b' H'. now rewrite (Hrun self' b' H'), (Hrun self b Hsplit).
Qed.

Lemma visit_schedule_uses_first_segment_only_witness :
  result (visit_schedule (Sample.record "Appointment" "visit_schedule1.schedule9"))
         (Sample.world Sample.site_loaded)
  = inr Sample.visit_schedule1 /\
  schedules Sample.visit_schedule1 !! "schedule9" = None /\
  calls (final (visit_schedule (Sample.record "Appointment" "visit_schedule1.schedule9"))
           (Sample.world Sample.site_loaded))
  = [get_visit_schedule_call "visit_schedule1"].
Proof.
  pose proof (proj2 (visit_schedule_uses_first_segment_only
                       (Sample.record "Appointment" "visit_schedule1.schedule9")
                       (Sample.world Sample.site_loaded))
                "visit_schedule1" "schedule9" eq_refl) as (_ & Hcalls & Hvs & _).
  split; [|split].
  - apply Hvs; reflexivity.
  - reflexivity.
  - exact Hcalls.
Defined.

(** ** What an error carries *)

(** C7, amended. Every outcome of the [schedule] property is one of four.
    A path that is not of two parts fails, before any lookup, with a
    [VisitScheduleModelError] that names the class of the record and
    chains the [ValueError].  A failed registry lookup fails with a
    [VisitScheduleModelError] that names the visit-schedule name looked
    up, not the record, and chains the registry's error.  An error of
    [get_schedule] reaches the caller as raised, not wrapped.  A schedule
    is returned only when both lookups succeed, and it is the one looked
    up: nothing is substituted. *)
Theorem schedule_outcomes (self : Model) (w : World) :
  match result (schedule self) w with
  | inl e =>
      (length (split "." (meta_visit_schedule_name self)) <> 2%nat /\
       malformed_path_error self e /\ final (schedule self) w = w)
      \/ (exists a b c,
            split "." (meta_visit_schedule_name self) = [a; b] /\
            result (get_visit_schedule a) w = inl c /\
            e = VisitScheduleModelError
                  ("visit_schedule_name: '" +:+ a +:+ "'. Got " +:+ str c) c)
      \/ (exists a b vs,
            split "." (meta_visit_schedule_name self) = [a; b] /\
            result (get_visit_schedule a) w = inr vs /\
            result (get_schedule vs b) w = inl e)
  | inr s =>
      exists a b vs,
        split "." (meta_visit_schedule_name self) = [a; b] /\
        loaded (site_visit_schedules w) = true /\
        registry (site_visit_schedules w) !! a = Some vs /\
        schedules vs !! b = Some s
  end.
Proof.
  destruct (Nat.eq_dec (length (split "." (meta_visit_schedule_name self))) 2%nat)
    as [Hlen|Hlen].
  - destruct (split "." (meta_visit_schedule_name self))
      as [|a [|b [|c l]]] eqn:Hsplit; try discriminate.
    unfold result at 1. rewrite (schedule_wellformed _ _ _ _ Hsplit).
    destruct (result (get_visit_schedule a) w) as [c|vs] eqn:Hc.
    + simpl. right. left. exists a, b, c. now rewrite <- Hsplit.
    + unfold result in Hc. rewrite get_visit_schedule_run in Hc. simpl in Hc.
      rewrite get_schedule_run. simpl.
      destruct (loaded (site_visit_schedules w)) eqn:Hl; [|discriminate].
      destruct (registry (site_visit_schedules w) !! a) eqn:Hr; [|discriminate].
      injection Hc as ->.
      destruct (schedules vs !! b) as [s|] eqn:Hb.
      * exists a, b, vs. now rewrite <- Hsplit.
      * right. right. exists a, b, vs. rewrite <- Hsplit.
        split; [reflexivity|]. unfold result.
        rewrite get_visit_schedule_run, get_schedule_run. simpl.
        now rewrite Hl, Hr, Hb.
  - destruct (schedule_malformed self w Hlen) as [msg Hmsg].
    unfold result, final. rewrite Hmsg. simpl. left.
    split; [exact Hlen|]. split; [now exists msg|reflexivity].
Qed.

(** C7 as stated fails on the context of a registry error: records of
    two different classes declared against the same path get the very
    same error from an unloaded registry, whose text names the visit
    schedule and not the record; and the error for a schedule name the
    visit schedule does not hold is not wrapped at all. *)
Lemma registry_error_names_no_record_type :
  result (schedule (Sample.record "Appointment" "visit_schedule1.schedule1"))
         (Sample.world Sample.site_not_loaded)
  = result (schedule (Sample.record "SubjectVisit" "visit_schedule1.schedule1"))
           (Sample.world Sample.site_not_loaded) /\
  (exists msg,
     result (schedule (Sample.record "Appointment" "visit_schedule1.schedule1"))
            (Sample.world Sample.site_not_loaded)
     = inl (VisitScheduleModelError
              ("visit_schedule_name: 'visit_schedule1'. Got " +:+ msg)
              (RegistryNotLoaded msg))) /\
  cause_of <$> raised (result (schedule (Sample.record "Appointment" "visit_schedule1.schedule9"))
                         (Sample.world Sample.site_loaded))
  = Some None.
Proof.
  split; [reflexivity|]. split; [|reflexivity].
  eexists. reflexivity.
Qed.

(** ** Resolving twice *)

(** C8. The [schedule] property leaves the registry as it found it, so a
    second call made right after the first returns the same result; more
    generally the result is the same in any state with the same registry,
    and a schedule that is returned depends on the path and the registry
    alone, not on the record that asks. *)
Theorem schedule_idempotent (self : Model) (w : World) :
  site_visit_schedules (final (schedule self) w) = site_visit_schedules w /\
  result (schedule self) (final (schedule self) w) = result (schedule self) w /\
  (forall w',
     site_visit_schedules w' = site_visit_schedules w ->
     result (schedule self) w' = result (schedule self) w) /\
  (forall self' w' s,
     meta_visit_schedule_name self' = meta_visit_schedule_name self ->
     site_visit_schedules w' = site_visit_schedules w ->
     result (schedule self) w = inr s ->
     result (schedule self') w' = inr s).
Proof.
  split; [apply schedule_final_site|].
  split; [apply schedule_result_site, schedule_final_site|].
  split; [intros w' H; now apply schedule_result_site|].
  intros self' w' s Hpath Hsite.
  rewrite (schedule_result_site self' w w' Hsite).
  unfold result. rewrite !schedule_run, Hpath.
  destruct (unpack2 _) as [[]|[a b]]; try discriminate.
  now destruct (result (get_visit_schedule a) w).
Qed.

Lemma schedule_idempotent_witness :
  result (schedule (Sample.record "Appointment" "visit_schedule1.schedule1"))
    (final (schedule (Sample.record "Appointment" "visit_schedule1.schedule1"))
       (Sample.world Sample.site_loaded))
  = result (schedule (Sample.record "Appointment" "visit_schedule1.schedule1"))
      (Sample.world Sample.site_loaded) /\
  result (schedule (Sample.record "SubjectVisit" "visit_schedule1.schedule1"))
    (Sample.world Sample.site_loaded)
  = inr Sample.schedule1.
Proof.
  pose proof (schedule_idempotent
                (Sample.record "Appointment" "visit_schedule1.schedule1")
                (Sample.world Sample.site_loaded)) as (_ & Htwice & _ & Hdata).
  split; [exact Htwice|].
  apply Hdata; reflexivity.
Defined.

(** ** The calendar: a negative offset leads to an earlier datetime *)

Lemma date_lt_trans (a b c : Calendar.date) :
  Calendar.date_lt a b -> Calendar.date_lt b c -> Calendar.date_lt a c.
Proof.
  destruct a as [[y1 m1] d1], b as [[y2 m2] d2], c as [[y3 m3] d3].
  unfold Calendar.date_lt. lia.
Qed.

Lemma prev_day_lt (d : Calendar.date) :
  Calendar.date_lt (Calendar.prev_day d) d.
Proof.
  destruct d as [[y m] dd]. unfold Calendar.prev_day.
  destruct (1 <? dd) eqn:E1; [apply Z.ltb_lt in E1; simpl; lia|].
  destruct (1 <? m) eqn:E2; [apply Z.ltb_lt in E2; simpl; lia|].
  simpl. lia.
Qed.

Lemma add_days_zero (d : Calendar.date) : Calendar.add_days d 0 = d.
Proof. reflexivity. Qed.

Lemma add_days_negative (d : Calendar.date) (n : Z) :
  n < 0 -> Calendar.date_lt (Calendar.add_days d n) d.
Proof.
  destruct n as [|p|p]; try lia. intros _.
  unfold Calendar.add_days. simpl.
  apply (Pos.iter_ind _ Calendar.prev_day d
           (fun _ d' => Calendar.date_lt d' d)).
  - apply prev_day_lt.
  - intros _ d' IH. exact (date_lt_trans _ _ _ (prev_day_lt d') IH).
Qed.

Lemma date_of_make (d : Calendar.date) (t : Z) :
  Calendar.date_of (Calendar.make d t) = d.
Proof. now destruct d as [[y m] dd]. Qed.

Lemma time_of_make (d : Calendar.date) (t : Z) :
  Calendar.time_of (Calendar.make d t) = t.
Proof.
  destruct d as [[y m] dd]. unfold Calendar.time_of, Calendar.make. simpl.
  Z.div_mod_to_equations. lia.
Qed.

Lemma time_of_valid (dt : Calendar.datetime) :
  Calendar.valid dt -> 0 <= Calendar.time_of dt < Calendar.usec_per_day.
Proof.
  unfold Calendar.valid, Calendar.time_of, Calendar.usec_per_day. lia.
Qed.

Lemma add_timedelta_negative (dt : Calendar.datetime) (us : Z) :
  Calendar.valid dt -> us < 0 ->
  Calendar.lt (Calendar.add_timedelta dt us) dt.
Proof.
  intros Hv Hus. apply time_of_valid in Hv.
  unfold Calendar.lt, Calendar.add_timedelta.
  rewrite date_of_make, time_of_make.
  set (total := Calendar.time_of dt + us).
  assert (Hq : total / Calendar.usec_per_day < 0 \/
               (total / Calendar.usec_per_day = 0 /\
                total mod Calendar.usec_per_day = total)).
  { unfold Calendar.usec_per_day in *. subst total.
    Z.div_mod_to_equations. lia. }
  destruct Hq as [Hq|[Hq Hr]].
  - left. now apply add_days_negative.
  - right. rewrite Hq, Hr, add_days_zero. subst total. split; [reflexivity|lia].
Qed.

Lemma replace_clipped_lt (dt : Calendar.datetime) (y m : Z) :
  y < Calendar.year dt \/ (y = Calendar.year dt /\ m < Calendar.month dt) ->
  Calendar.lt (Calendar.replace_clipped dt y m) dt.
Proof.
  intros H. left. unfold Calendar.date_of, Calendar.replace_clipped. simpl. lia.
Qed.

Lemma add_years_months_earlier (dt : Calendar.datetime) (ys ms : Z) :
  Calendar.valid dt ->
  ys <= 0 -> -11 <= ms <= 0 -> ys < 0 \/ ms < 0 ->
  Calendar.lt (Calendar.add_years_months dt ys ms) dt.
Proof.
  intros (Hm & _) Hys Hms Hneg. unfold Calendar.add_years_months.
  destruct (12 <? Calendar.month dt + ms) eqn:E1; [apply Z.ltb_lt in E1; lia|].
  destruct (Calendar.month dt + ms <? 1) eqn:E2.
  - apply Z.ltb_lt in E2. apply replace_clipped_lt. lia.
  - apply Z.ltb_ge in E2. apply replace_clipped_lt. lia.
Qed.

Lemma fix_months_negative (n : Z) :
  n < 0 ->
  fst (Calendar.fix_months n) <= 0 /\
  -11 <= snd (Calendar.fix_months n) <= 0 /\
  (fst (Calendar.fix_months n) < 0 \/ snd (Calendar.fix_months n) < 0).
Proof.
  intros Hn. unfold Calendar.fix_months.
  destruct (11 <? Z.abs n) eqn:E.
  - apply Z.ltb_lt in E. rewrite (Z.sgn_neg n Hn). simpl.
    replace (n * -1) with (- n) by lia.
    assert (H : 1 <= - n / 12 /\ 0 <= (- n) mod 12 < 12).
    { Z.div_mod_to_equations. lia. }
    lia.
  - apply Z.ltb_ge in E. simpl. lia.
Qed.

Lemma add_relativedelta_negative
    (dt : Calendar.datetime) (u : interval_unit) (n : Z) :
  Calendar.valid dt -> n < 0 ->
  Calendar.lt (Calendar.add_relativedelta dt u n) dt.
Proof.
  intros Hv Hn.
  destruct u; simpl;
    try (apply add_timedelta_negative;
         [exact Hv|unfold Calendar.usec_per_day; lia]).
  - apply add_years_months_earlier; [exact Hv|lia..].
  - destruct (fix_months_negative n Hn) as (H1 & H2 & H3).
    destruct (Calendar.fix_months n) as [ys ms]. simpl in *.
    now apply add_years_months_earlier.
Qed.

(** ** Projection of a schedule onto datetimes *)

Section projection.

Variable datetime : Type.
Variable add : datetime -> interval_unit -> Z -> datetime.

(** What the body of the loop yields for one visit. *)
Lemma timepoint_datetimes_lookup
    (self : Model) (base : datetime) (s : Schedule) (i : nat) :
  timepoint_datetimes datetime add self base s !! i
  = (fun visit =>
       (visit,
        if base_interval visit =? 0 then base
        else add base (base_interval_unit visit) (base_interval visit)))
      <$> visits s !! i.
Proof.
  unfold timepoint_datetimes. revert i.
  induction (visits s) as [|v l IH]; intros [|i]; simpl; try reflexivity.
  apply IH.
Qed.

Lemma timepoint_datetimes_visits
    (self : Model) (base : datetime) (s : Schedule) :
  fst <$> timepoint_datetimes datetime add self base s = visits s.
Proof.
  unfold timepoint_datetimes.
  induction (visits s) as [|v l IH]; [reflexivity|].
  cbn. f_equal. exact IH.
Qed.

Lemma timepoint_datetimes_length
    (self : Model) (base : datetime) (s : Schedule) :
  length (timepoint_datetimes datetime add self base s) = length (visits s).
Proof.
  transitivity (length (fst <$> timepoint_datetimes datetime add self base s)).
  - now rewrite length_fmap.
  - now rewrite timepoint_datetimes_visits.
Qed.

(** C2. For every visit in the schedule's visit sequence,
    [timepoint_datetimes] yields, at the position of the visit, the visit
    with the baseline itself when its [base_interval] is 0, and otherwise
    the visit with the baseline displaced by dateutil's sum with a
    [relativedelta] of [base_interval] in the visit's unit. *)
Theorem timepoint_datetimes_emits
    (self : Model) (base : datetime) (s : Schedule) (i : nat) (visit : Visit) :
  visits s !! i = Some visit ->
  (base_interval visit = 0 ->
     timepoint_datetimes datetime add self base s !! i = Some (visit, base)) /\
  (base_interval visit <> 0 ->
     timepoint_datetimes datetime add self base s !! i
     = Some (visit,
             add base (base_interval_unit visit) (base_interval visit))).
Proof.
  intros Hi. rewrite timepoint_datetimes_lookup, Hi. simpl. split.
  - intros ->. reflexivity.
  - intros Hnz. apply Z.eqb_neq in Hnz. now rewrite Hnz.
Qed.

(** C5. For every schedule, [timepoint_datetimes] yields a finite
    sequence with one element per visit of the schedule, and the visits
    of its elements are the schedule's visits in the schedule's order. *)
Theorem timepoint_datetimes_length_and_order
    (self : Model) (base : datetime) (s : Schedule) :
  length (timepoint_datetimes datetime add self base s) = length (visits s) /\
  fst <$> timepoint_datetimes datetime add self base s = visits s.
Proof.
  split; [apply timepoint_datetimes_length|apply timepoint_datetimes_visits].
Qed.

(** C10. [timepoint_datetimes] is a function of [base_datetime] and
    [schedule] alone: it takes no state, so it reads no registry, and two
    records, whatever their class, [Meta] option and stored fields, get
    the same sequence for the same arguments. *)
Theorem timepoint_datetimes_ignores_record
    (self1 self2 : Model) (base : datetime) (s : Schedule) :
  timepoint_datetimes datetime add self1 base s
  = timepoint_datetimes datetime add self2 base s.
Proof. reflexivity. Qed.

(** The order of datetimes, the datetimes Python can build, and what the
    sum does with a negative offset. *)
Variable earlier : datetime -> datetime -> Prop.
Variable valid : datetime -> Prop.
Hypothesis add_negative_earlier :
  forall dt u n, valid dt -> n < 0 -> earlier (add dt u n) dt.

(** C9. [timepoint_datetimes] does not look at the sign of
    [base_interval]: a visit whose [base_interval] is negative takes the
    offset branch like any other nonzero one, nothing is rejected or
    left out, and the datetime yielded with the visit is the baseline
    displaced by the negative interval, which is earlier than the
    baseline. *)
Theorem negative_interval_precedes_baseline
    (self : Model) (base : datetime) (s : Schedule) (i : nat) (visit : Visit) :
  valid base ->
  visits s !! i = Some visit ->
  base_interval visit < 0 ->
  length (timepoint_datetimes datetime add self base s) = length (visits s) /\
  exists d,
    timepoint_datetimes datetime add self base s !! i = Some (visit, d) /\
    d = add base (base_interval_unit visit) (base_interval visit) /\
    earlier d base.
Proof.
  intros Hv Hi Hneg.
  split; [apply timepoint_datetimes_length|].
  eexists. split; [|split; [reflexivity|]].
  - rewrite timepoint_datetimes_lookup, Hi. simpl.
    assert (Hnz : (base_interval visit =? 0) = false) by (apply Z.eqb_neq; lia).
    now rewrite Hnz.
  - now apply add_negative_earlier.
Qed.

End projection.

Lemma timepoint_datetimes_emits_witness :
  timepoint_datetimes Calendar.datetime Calendar.add_relativedelta
    (Sample.record "Appointment" "visit_schedule1.schedule1")
    Sample.baseline Sample.schedule1 !! 0%nat
  = Some (Sample.enrolment, Sample.baseline) /\
  timepoint_datetimes Calendar.datetime Calendar.add_relativedelta
    (Sample.record "Appointment" "visit_schedule1.schedule1")
    Sample.baseline Sample.schedule1 !! 1%nat
  = Some (Sample.month2,
          Calendar.add_relativedelta Sample.baseline months 2).
Proof.
  split.
  - apply (timepoint_datetimes_emits Calendar.datetime
             Calendar.add_relativedelta _ _ Sample.schedule1 0 Sample.enrolment);
      reflexivity.
  - apply (timepoint_datetimes_emits Calendar.datetime
             Calendar.add_relativedelta _ _ Sample.schedule1 1 Sample.month2);
      [reflexivity|discriminate].
Defined.

Lemma sample_baseline_valid : Calendar.valid Sample.baseline.
Proof.
  unfold Calendar.valid.
  change (Calendar.days_in_month _ _) with 31. simpl. lia.
Qed.

Lemma negative_interval_precedes_baseline_witness :
  length (timepoint_datetimes Calendar.datetime Calendar.add_relativedelta
            (Sample.record "Appointment" "visit_schedule1.schedule1")
            Sample.baseline Sample.schedule1)
  = length (visits Sample.schedule1) /\
  exists d,
    timepoint_datetimes Calendar.datetime Calendar.add_relativedelta
      (Sample.record "Appointment" "visit_schedule1.schedule1")
      Sample.baseline Sample.schedule1 !! 2%nat
    = Some (Sample.week_before, d) /\
    d = Calendar.add_relativedelta Sample.baseline weeks (-1) /\
    Calendar.lt d Sample.baseline.
Proof.
  apply (negative_interval_precedes_baseline Calendar.datetime
           Calendar.add_relativedelta Calendar.lt Calendar.valid
           add_relativedelta_negative
           (Sample.record "Appointment" "visit_schedule1.schedule1")
           Sample.baseline Sample.schedule1 2 Sample.week_before).
  - exact sample_baseline_valid.
  - reflexivity.
  - reflexivity.
Defined.

(** The calendar on the spec's sample: two months after 2024-01-31 is
    2024-03-31, one month after is the clipped 2024-02-29, and one week
    before is 2024-01-24. *)
Example calendar_samples :
  Calendar.date_of (Calendar.add_relativedelta Sample.baseline months 2)
  = (2024, 3, 31) /\
  Calendar.date_of (Calendar.add_relativedelta Sample.baseline months 1)
  = (2024, 2, 29) /\
  Calendar.date_of (Calendar.add_relativedelta Sample.baseline weeks (-1))
  = (2024, 1, 24).
Proof. repeat split; reflexivity. Qed.

(** * Further properties of the module *)

(** ** The [Meta] option is registered once *)

Lemma extend_DEFAULT_NAMES_elem (names : list string) :
  "visit_schedule_name" ∈ extend_DEFAULT_NAMES names.
Proof.
  unfold extend_DEFAULT_NAMES. case_bool_decide as H; [exact H|].
  apply elem_of_app. right. apply list_elem_of_singleton. reflexivity.
Qed.

(** After the import-time statement the option name is among Django's
    names, every name that was there is still there in its place, and
    nothing else was added. *)
Theorem DEFAULT_NAMES_extended (names : list string) :
  "visit_schedule_name" ∈ extend_DEFAULT_NAMES names /\
  names `prefix_of` extend_DEFAULT_NAMES names /\
  (forall x, x ∈ extend_DEFAULT_NAMES names ->
             x ∈ names \/ x = "visit_schedule_name") /\
  (length (extend_DEFAULT_NAMES names) <= S (length names))%nat.
Proof.
  split; [apply extend_DEFAULT_NAMES_elem|].
  unfold extend_DEFAULT_NAMES. case_bool_decide as H.
  - repeat split; auto.
  - split; [now apply prefix_app_r|]. split.
    + intros x Hx. apply elem_of_app in Hx as [Hx|Hx]; [now left|].
      right. now apply list_elem_of_singleton in Hx.
    + rewrite length_app. simpl. lia.
Qed.

(** Importing the module a second time changes nothing, and a tuple
    without repeated names stays without repeated names. *)
Theorem DEFAULT_NAMES_idempotent (names : list string) :
  extend_DEFAULT_NAMES (extend_DEFAULT_NAMES names) = extend_DEFAULT_NAMES names /\
  (NoDup names -> NoDup (extend_DEFAULT_NAMES names)).
Proof.
  split.
  - unfold extend_DEFAULT_NAMES at 1.
    now rewrite bool_decide_eq_true_2 by apply extend_DEFAULT_NAMES_elem.
  - intros Hnd. unfold extend_DEFAULT_NAMES. case_bool_decide as H; [exact Hnd|].
    apply NoDup_app. repeat split; [exact Hnd| |apply NoDup_singleton].
    intros x Hx Hx'. apply list_elem_of_singleton in Hx'. now subst.
Qed.

Lemma DEFAULT_NAMES_idempotent_witness :
  extend_DEFAULT_NAMES (extend_DEFAULT_NAMES sample_DEFAULT_NAMES)
  = extend_DEFAULT_NAMES sample_DEFAULT_NAMES /\
  NoDup (extend_DEFAULT_NAMES sample_DEFAULT_NAMES).
Proof.
  split.
  - apply (DEFAULT_NAMES_idempotent sample_DEFAULT_NAMES).
  - apply (DEFAULT_NAMES_idempotent sample_DEFAULT_NAMES).
    apply (bool_decide_unpack _). vm_compute. exact I.
Defined.

(** ** The two properties against each other *)

Lemma visit_schedule_run (self : Model) (w : World) :
  visit_schedule self w =
    match unpack2 (split "." (meta_visit_schedule_name self)) with
    | inl (ValueError msg) =>
        (inl (VisitScheduleModelError
                (class_name self +:+ ". Got " +:+ msg) (ValueError msg)), w)
    | inl e => (inl e, w)
    | inr (a, b) =>
        (match result (get_visit_schedule a) w with
         | inr vs => inr vs
         | inl c => inl (registry_error a c)
         end, log (get_visit_schedule_call a) w)
    end.
Proof.
  destruct (unpack2 _) as [e|[a b]] eqn:E.
  - destruct (split "." (meta_visit_schedule_name self)) as [|x [|y [|z l]]] eqn:Es;
      simpl in E; try discriminate; injection E as <-; run; now rewrite Es.
  - apply unpack2_inr in E. now apply (visit_schedule_wellformed _ _ a b).
Qed.

Lemma unpack2_split_inl (p : string) (e : exn) :
  unpack2 (split "." p) = inl e -> exists msg, e = ValueError msg.
Proof.
  destruct (split "." p) as [|x [|y [|z l]]]; simpl; intros [= <-]; eauto.
Qed.

(** [schedule] parses the path a second time, inside [visit_schedule],
    and the two readings agree: an error of [visit_schedule] is the
    error of [schedule], unchanged and in the same state, and a visit
    schedule that [visit_schedule] returns is the one [schedule] asks
    for the second part of the path. *)
Theorem schedule_through_visit_schedule (self : Model) (w : World) :
  (forall e,
     result (visit_schedule self) w = inl e ->
     schedule self w = (inl e, final (visit_schedule self) w)) /\
  (forall vs,
     result (visit_schedule self) w = inr vs ->
     exists a b,
       split "." (meta_visit_schedule_name self) = [a; b] /\
       schedule self w = get_schedule vs b (final (visit_schedule self) w)).
Proof.
  unfold result at 1 2, final. rewrite visit_schedule_run, schedule_run.
  destruct (unpack2 _) as [e0|[a b]] eqn:E.
  - destruct (unpack2_split_inl _ _ E) as [msg ->]. simpl. split.
    + now intros e [= <-].
    + discriminate.
  - apply unpack2_inr in E. simpl.
    destruct (result (get_visit_schedule a) w) as [c|vs0]; split.
    + now intros e [= <-].
    + discriminate.
    + discriminate.
    + intros vs [= <-]. now exists a, b.
Qed.

Lemma schedule_through_visit_schedule_witness :
  schedule (Sample.record "Appointment" "visit_schedule1.schedule1")
    (Sample.world Sample.site_not_loaded)
  = (inl (registry_error "visit_schedule1"
            (RegistryNotLoaded "Registry not loaded.")),
     final (visit_schedule (Sample.record "Appointment" "visit_schedule1.schedule1"))
           (Sample.world Sample.site_not_loaded)) /\
  exists a b,
    split "." "visit_schedule1.schedule1" = [a; b] /\
    schedule (Sample.record "Appointment" "visit_schedule1.schedule1")
      (Sample.world Sample.site_loaded)
    = get_schedule Sample.visit_schedule1 b
        (final (visit_schedule (Sample.record "Appointment" "visit_schedule1.schedule1"))
               (Sample.world Sample.site_loaded)).
Proof.
  split.
  - apply (schedule_through_visit_schedule
             (Sample.record "Appointment" "visit_schedule1.schedule1")
             (Sample.world Sample.site_not_loaded)).
    reflexivity.
  - apply (schedule_through_visit_schedule
             (Sample.record "Appointment" "visit_schedule1.schedule1")
             (Sample.world Sample.site_loaded)).
    reflexivity.
Defined.

(** ** Exactly which paths resolve *)

Lemma split_two_iff (p a b : string) :
  split "." p = [a; b] <->
  p = a +:+ "." +:+ b /\ segment a /\ segment b.
Proof.
  split.
  - apply split_two_inv.
  - intros (-> & Ha & Hb). now apply split_two.
Qed.

(** [schedule] returns a schedule exactly when the path is two
    dot-free parts joined by one dot, the registry is loaded and holds
    the first part, and the visit schedule found holds the second; the
    schedule returned is the one held there. *)
Theorem schedule_succeeds_iff (self : Model) (w : World) (s : Schedule) :
  result (schedule self) w = inr s <->
  exists a b vs,
    meta_visit_schedule_name self = a +:+ "." +:+ b /\
    segment a /\ segment b /\
    loaded (site_visit_schedules w) = true /\
    registry (site_visit_schedules w) !! a = Some vs /\
    schedules vs !! b = Some s.
Proof.
  unfold result. rewrite schedule_run. split.
  - destruct (unpack2 _) as [e0|[a b]] eqn:E.
    + destruct (unpack2_split_inl _ _ E) as [msg ->]. discriminate.
    + apply unpack2_inr, split_two_iff in E. destruct E as (Hp & Ha & Hb).
      unfold result. rewrite get_visit_schedule_run. simpl.
      destruct (loaded (site_visit_schedules w)) eqn:Hl; [|discriminate].
      destruct (registry (site_visit_schedules w) !! a) as [vs|] eqn:Hr;
        [|discriminate].
      rewrite get_schedule_run. simpl.
      destruct (schedules vs !! b) as [s0|] eqn:Hs; [|discriminate].
      intros [= <-]. now exists a, b, vs.
  - intros (a & b & vs & Hp & Ha & Hb & Hl & Hr & Hs).
    assert (E : split "." (meta_visit_schedule_name self) = [a; b])
      by now apply split_two_iff.
    rewrite E. simpl. unfold result. rewrite get_visit_schedule_run. simpl.
    rewrite Hl, Hr, get_schedule_run. simpl. now rewrite Hs.
Qed.

(** [visit_schedule] returns a visit schedule exactly when the path is
    two dot-free parts joined by one dot and the loaded registry holds
    the first; the second part may be any dot-free string, the empty
    one included. *)
Theorem visit_schedule_succeeds_iff
    (self : Model) (w : World) (vs : VisitSchedule) :
  result (visit_schedule self) w = inr vs <->
  exists a b,
    meta_visit_schedule_name self = a +:+ "." +:+ b /\
    segment a /\ segment b /\
    loaded (site_visit_schedules w) = true /\
    registry (site_visit_schedules w) !! a = Some vs.
Proof.
  unfold result. rewrite visit_schedule_run. split.
  - destruct (unpack2 _) as [e0|[a b]] eqn:E.
    + destruct (unpack2_split_inl _ _ E) as [msg ->]. discriminate.
    + apply unpack2_inr, split_two_iff in E. destruct E as (Hp & Ha & Hb).
      unfold result. rewrite get_visit_schedule_run. simpl.
      destruct (loaded (site_visit_schedules w)) eqn:Hl; [|discriminate].
      destruct (registry (site_visit_schedules w) !! a) as [vs0|] eqn:Hr;
        [|discriminate].
      intros [= <-]. now exists a, b.
  - intros (a & b & Hp & Ha & Hb & Hl & Hr).
    assert (E : split "." (meta_visit_schedule_name self) = [a; b])
      by now apply split_two_iff.
    rewrite E. simpl. unfold result. rewrite get_visit_schedule_run. simpl.
    now rewrite Hl, Hr.
Qed.

(** ** The text of the malformed-path error *)





(** ** The calls made, in order *)

(** [schedule] asks the registry at most once and [get_schedule] at
    most once, in that order, and [get_schedule] only on the visit
    schedule the registry returned for the first part of the path, with
    the second part as the name: the calls of a run are none for a path
    not of two parts, the registry lookup alone when that fails, and the
    lookup followed by [get_schedule] otherwise. *)
Theorem schedule_calls_in_order (self : Model) (w : World) :
  (length (split "." (meta_visit_schedule_name self)) <> 2%nat /\
   calls (final (schedule self) w) = calls w)
  \/ (exists a b,
        split "." (meta_visit_schedule_name self) = [a; b] /\
        ((exists c,
            result (get_visit_schedule a) w = inl c /\
            calls (final (schedule self) w)
            = (calls w ++ [get_visit_schedule_call a])%list)
         \/ (exists vs,
               result (get_visit_schedule a) w = inr vs /\
               calls (final (schedule self) w)
               = (calls w ++ [get_visit_schedule_call a;
                              get_schedule_call vs b])%list))).
Proof.
  unfold final. rewrite schedule_run.
  destruct (unpack2 _) as [e0|[a b]] eqn:E.
  - left. destruct (unpack2_split_inl _ _ E) as [msg ->]. split; [|reflexivity].
    intros Hlen.
    destruct (split "." (meta_visit_schedule_name self)) as [|x [|y [|z l]]];
      simpl in *; try lia; discriminate.
  - right. apply unpack2_inr in E. exists a, b. split; [exact E|].
    destruct (result (get_visit_schedule a) w) as [c|vs].
    + left. now exists c.
    + right. exists vs. split; [reflexivity|].
      rewrite get_schedule_run. unfold log. simpl. now rewrite <- app_assoc.
Qed.

(** ** The stored fields play no part in resolution *)

(** Both properties read the class name and the [Meta] option of the
    record and nothing else: records that agree on these two, whatever
    their stored [visit_schedule_name], [schedule_name] and
    [visit_code], resolve alike, to the same result in the same state. *)
Theorem resolution_ignores_stored_fields (self self' : Model) (w : World) :
  class_name self = class_name self' ->
  meta_visit_schedule_name self = meta_visit_schedule_name self' ->
  schedule self w = schedule self' w /\
  visit_schedule self w = visit_schedule self' w.
Proof.
  intros Hc Hm. rewrite !schedule_run, !visit_schedule_run. now rewrite Hc, Hm.
Qed.

Lemma resolution_ignores_stored_fields_witness :
  schedule (Sample.record "Appointment" "visit_schedule1.schedule1")
    (Sample.world Sample.site_loaded)
  = schedule {| class_name := "Appointment";
                meta_visit_schedule_name := "visit_schedule1.schedule1";
                visit_schedule_name := "visit_schedule9";
                schedule_name := "schedule9";
                visit_code := Some "1000" |}
      (Sample.world Sample.site_loaded) /\
  visit_schedule (Sample.record "Appointment" "visit_schedule1.schedule1")
    (Sample.world Sample.site_loaded)
  = visit_schedule {| class_name := "Appointment";
                      meta_visit_schedule_name := "visit_schedule1.schedule1";
                      visit_schedule_name := "visit_schedule9";
                      schedule_name := "schedule9";
                      visit_code := Some "1000" |}
      (Sample.world Sample.site_loaded).
Proof.
  apply (resolution_ignores_stored_fields
           (Sample.record "Appointment" "visit_schedule1.schedule1")
           {| class_name := "Appointment";
              meta_visit_schedule_name := "visit_schedule1.schedule1";
              visit_schedule_name := "visit_schedule9";
              schedule_name := "schedule9";
              visit_code := Some "1000" |});
    reflexivity.
Defined.

(** ** The [visits] property *)

Section visits_property.

Variable A : Type.
Variable get_visits : Schedule -> M A.

(** The [visits] property resolves the schedule first: when [schedule]
    raises, [visits] raises the same error in the same state and
    [get_visits] is not called; on a path of two dot-free parts that the
    loaded registry resolves, it is [get_visits] of the schedule found,
    run after the two lookups. *)
Theorem visits_resolves_then_get_visits (self : Model) (w : World) :
  (forall e,
     result (schedule self) w = inl e ->
     Visits.visits A get_visits self w = (inl e, final (schedule self) w)) /\
  (forall a b vs s,
     segment a -> segment b ->
     meta_visit_schedule_name self = a +:+ "." +:+ b ->
     loaded (site_visit_schedules w) = true ->
     registry (site_visit_schedules w) !! a = Some vs ->
     schedules vs !! b = Some s ->
     Visits.visits A get_visits self w
     = get_visits s (log (get_schedule_call vs b)
                       (log (get_visit_schedule_call a) w))).
Proof.
  unfold Visits.visits, mbind, M_bind, result, final. split.
  - intros e. destruct (schedule self w) as [[e0|s0] w']; simpl; [|discriminate].
    now intros [= <-].
  - intros a b vs s Ha Hb Hp Hl Hr Hs.
    assert (E : split "." (meta_visit_schedule_name self) = [a; b])
      by now apply split_two_iff.
    rewrite (schedule_wellformed _ _ _ _ E).
    unfold result. rewrite get_visit_schedule_run. simpl.
    rewrite Hl, Hr, get_schedule_run. now rewrite Hs.
Qed.

End visits_property.

Lemma visits_resolves_then_get_visits_witness :
  Visits.visits (list Visit) sample_get_visits
    (Sample.record "Appointment" "visit_schedule1")
    (Sample.world Sample.site_loaded)
  = (inl (VisitScheduleModelError
            "Appointment. Got not enough values to unpack (expected 2, got 1)"
            (ValueError "not enough values to unpack (expected 2, got 1)")),
     final (schedule (Sample.record "Appointment" "visit_schedule1"))
           (Sample.world Sample.site_loaded)) /\
  result (Visits.visits (list Visit) sample_get_visits
            (Sample.record "Appointment" "visit_schedule1.schedule1"))
         (Sample.world Sample.site_loaded)
  = inr [Sample.enrolment; Sample.month2; Sample.week_before].
Proof.
  split.
  - apply (proj1 (visits_resolves_then_get_visits (list Visit) sample_get_visits
                    (Sample.record "Appointment" "visit_schedule1")
                    (Sample.world Sample.site_loaded))).
    reflexivity.
  - unfold result.
    rewrite (proj2 (visits_resolves_then_get_visits (list Visit) sample_get_visits
                      (Sample.record "Appointment" "visit_schedule1.schedule1")
                      (Sample.world Sample.site_loaded))
               "visit_schedule1" "schedule1" Sample.visit_schedule1 Sample.schedule1
               eq_refl eq_refl eq_refl eq_refl eq_refl eq_refl).
    reflexivity.
Defined.

(** ** More on the projection *)

Section projection_more.

Variable datetime : Type.
Variable add : datetime -> interval_unit -> Z -> datetime.

Lemma timepoint_datetimes_fmap (self : Model) (base : datetime) (s : Schedule) :
  timepoint_datetimes datetime add self base s
  = (fun visit =>
       (visit,
        if base_interval visit =? 0 then base
        else add base (base_interval_unit visit) (base_interval visit)))
      <$> visits s.
Proof.
  unfold timepoint_datetimes.
  induction (visits s) as [|v l IH]; [reflexivity|].
  cbn. f_equal. exact IH.
Qed.

(** Offsets are counted from the baseline, never from the visit before:
    what is yielded for a visit depends on the visit and the baseline
    alone.  A visit that stands in two schedules, at whatever positions,
    is yielded with the same datetime by both, and a schedule whose
    visits are those of another in a different order yields the same
    pairs in that order. *)
Theorem timepoint_depends_on_visit_alone
    (self : Model) (base : datetime) (s1 s2 : Schedule) :
  (forall i j visit,
     visits s1 !! i = Some visit -> visits s2 !! j = Some visit ->
     timepoint_datetimes datetime add self base s1 !! i
     = timepoint_datetimes datetime add self base s2 !! j) /\
  (visits s1 ≡ₚ visits s2 ->
   timepoint_datetimes datetime add self base s1
   ≡ₚ timepoint_datetimes datetime add self base s2).
Proof.
  rewrite !timepoint_datetimes_fmap. split.
  - intros i j visit Hi Hj. now rewrite !list_lookup_fmap, Hi, Hj.
  - intros Hp. now apply fmap_Permutation.
Qed.

(** The test for a zero interval only saves a call: wherever adding a
    [relativedelta] of zero to the baseline gives the baseline back, as
    dateutil's sum does, every visit is yielded with the baseline
    displaced by its interval, the zero ones included. *)
Theorem zero_interval_test_is_a_shortcut
    (self : Model) (base : datetime) (s : Schedule) :
  (forall u, add base u 0 = base) ->
  timepoint_datetimes datetime add self base s
  = (fun visit =>
       (visit, add base (base_interval_unit visit) (base_interval visit)))
      <$> visits s.
Proof.
  intros Hzero. rewrite timepoint_datetimes_fmap.
  apply list_fmap_ext. intros i visit _.
  destruct (base_interval visit =? 0) eqn:E; [|reflexivity].
  apply Z.eqb_eq in E. now rewrite E, Hzero.
Qed.

End projection_more.

Lemma timepoint_depends_on_visit_alone_witness :
  timepoint_datetimes Calendar.datetime Calendar.add_relativedelta
    (Sample.record "Appointment" "visit_schedule1.schedule1") Sample.baseline
    {| name := "reordered";
       visits := [Sample.week_before; Sample.enrolment; Sample.month2] |}
  ≡ₚ timepoint_datetimes Calendar.datetime Calendar.add_relativedelta
       (Sample.record "Appointment" "visit_schedule1.schedule1") Sample.baseline
       Sample.schedule1.
Proof.
  apply (timepoint_depends_on_visit_alone Calendar.datetime
           Calendar.add_relativedelta
           (Sample.record "Appointment" "visit_schedule1.schedule1")
           Sample.baseline
           {| name := "reordered";
              visits := [Sample.week_before; Sample.enrolment; Sample.month2] |}
           Sample.schedule1).
  simpl. apply Permutation_sym.
  change ([Sample.enrolment; Sample.month2; Sample.week_before]
          ≡ₚ ([Sample.week_before] ++ [Sample.enrolment; Sample.month2])%list).
  apply (Permutation_app_comm [Sample.enrolment; Sample.month2]
           [Sample.week_before]).
Defined.

Lemma zero_interval_test_is_a_shortcut_witness :
  timepoint_datetimes Calendar.datetime Calendar.add_relativedelta
    (Sample.record "Appointment" "visit_schedule1.schedule1")
    Sample.baseline Sample.schedule1
  = (fun visit =>
       (visit,
        Calendar.add_relativedelta Sample.baseline
          (base_interval_unit visit) (base_interval visit)))
      <$> visits Sample.schedule1.
Proof.
  apply (zero_interval_test_is_a_shortcut Calendar.datetime
           Calendar.add_relativedelta).
  intros u. destruct u; reflexivity.
Defined.
